(** * prometheus-kemp-exporter: the [server] command ([cmd/server.go])

    A shallow embedding of [serverRun]: the metric registry (three plain
    gauges and fourteen gauge vectors keyed by the label values
    [(address, port)]), the per-cycle registry update, the collector loop
    with its fetch / log / exit / sleep effects, and the start-up code that
    reads the command line. *)

From Stdlib Require Import ZArith List Bool Lia.
From Stdlib Require Import Ascii DecimalString DecimalZ.
From Stdlib Require Finite.
From stdpp Require Import base option list gmap strings fin_maps.

Local Open Scope string_scope.
Local Open Scope list_scope.
Local Open Scope Z_scope.

(** ** Go values *)

(** Go's [int] and [int64] values are carried as mathematical integers. *)

(** Two's-complement wrap-around of an [int64] result. *)
Definition wrap64 (x : Z) : Z := (x + 2 ^ 63) mod 2 ^ 64 - 2 ^ 63.

(** A gauge holds a [float64].  The only values this program ever stores in
    one are [0] (a fresh gauge) and conversions [float64(i)] of integers,
    and those are integers themselves: a gauge value is represented by the
    integer it is equal to. *)
Definition float64 : Type := Z.

(** The conversion [float64(i)]: round to nearest, ties to even, on a
    53-bit significand.  Exact up to [2^53] in magnitude. *)
Definition float64_of_int (x : Z) : float64 :=
  let a := Z.abs x in
  let e := Z.log2 a - 52 in
  if e <=? 0 then x
  else
    let q := Z.shiftr a e in
    let r := Z.land a (Z.ones e) in
    let half := Z.shiftl 1 (e - 1) in
    let q' := if (half <? r) || ((r =? half) && Z.odd q) then q + 1 else q in
    Z.sgn x * Z.shiftl q' e.

(** [strconv.Itoa]: the decimal form of an integer, with a leading [-] for
    negative numbers and no leading zeros. *)
Definition strconv_Itoa (i : Z) : string :=
  NilEmpty.string_of_int (Z.to_int i).

(** ** The statistics payload ([kemp.Statistics]) *)

Module kemp.

Module T.
Record t : Type := mk
  { ConnectionsPerSec : Z;
    BytesPerSec : Z;
    PacketsPerSec : Z }.
End T.

Module VS.
Record t : Type := mk
  { Address : string;
    Port : Z;
    TotalConnections : Z;
    TotalPackets : Z;
    TotalBytes : Z;
    ActiveConnections : Z;
    ConnectionsPerSec : Z;
    BytesRead : Z;
    BytesWritten : Z }.
End VS.

Module RS.
Record t : Type := mk
  { Address : string;
    Port : Z;
    TotalConnections : Z;
    TotalPackets : Z;
    TotalBytes : Z;
    ActiveConnections : Z;
    ConnectionsPerSec : Z;
    BytesRead : Z;
    BytesWritten : Z }.
End RS.

Record Statistics : Type := mkStatistics
  { Totals : T.t;
    VirtualServers : list VS.t;
    RealServers : list RS.t }.

(** [kemp.Config], the argument of [kemp.NewClient]. *)
Record Config : Type := mkConfig
  { Endpoint : string;
    User : string;
    Password : string;
    Debug : bool }.

End kemp.

(** ** The metric registry *)

(** The label values of one child of a gauge vector declared with the label
    names [address] and [port]. *)
Abbreviation LabelValues := (string * string)%type.

(** A [prometheus.GaugeVec]: the children created so far, by label values. *)
Abbreviation GaugeVec := (gmap (string * string) float64).

(** [vec.WithLabelValues(address, port)]: the child for these label values,
    created with value [0] when it does not exist yet.  The vectors are
    declared with two label names and every call passes two values, so the
    call never panics on their number. *)
Definition WithLabelValues (lvs : LabelValues) (vec : GaugeVec) : GaugeVec :=
  match vec !! lvs with
  | Some _ => vec
  | None => <[lvs := 0]> vec
  end.

(** [child.Set(x)] on the child of [vec] with label values [lvs]. *)
Definition Gauge_Set (lvs : LabelValues) (x : float64) (vec : GaugeVec) : GaugeVec :=
  alter (fun _ => x) lvs vec.

(** [vec.WithLabelValues(address, port).Set(x)]. *)
Definition set_child (lvs : LabelValues) (x : float64) (vec : GaugeVec) : GaugeVec :=
  Gauge_Set lvs x (WithLabelValues lvs vec).

(** The package-level metrics of [cmd/server.go]. *)
Record Registry : Type := mkRegistry
  { connsPerSec : float64;
    bytesPerSec : float64;
    packetsPerSec : float64;
    virtualServerTotalConnections : GaugeVec;
    virtualServerTotalPackets : GaugeVec;
    virtualServerTotalBytes : GaugeVec;
    virtualServerActiveConnections : GaugeVec;
    virtualServerConnsPerSec : GaugeVec;
    virtualServerBytesRead : GaugeVec;
    virtualServerBytesWritten : GaugeVec;
    realServerTotalConnections : GaugeVec;
    realServerTotalPackets : GaugeVec;
    realServerTotalBytes : GaugeVec;
    realServerActiveConnections : GaugeVec;
    realServerConnsPerSec : GaugeVec;
    realServerBytesRead : GaugeVec;
    realServerBytesWritten : GaugeVec }.

(** The registry as [init] leaves it: gauges at zero, vectors without
    children. *)
Definition empty_registry : Registry :=
  mkRegistry 0 0 0 ∅ ∅ ∅ ∅ ∅ ∅ ∅ ∅ ∅ ∅ ∅ ∅ ∅ ∅.

(** ** One update cycle (lines 151-173) *)

(** Lines 151-153. *)
Definition update_totals (t : kemp.T.t) (r : Registry) : Registry :=
  {| connsPerSec := float64_of_int (kemp.T.ConnectionsPerSec t);
     bytesPerSec := float64_of_int (kemp.T.BytesPerSec t);
     packetsPerSec := float64_of_int (kemp.T.PacketsPerSec t);
     virtualServerTotalConnections := virtualServerTotalConnections r;
     virtualServerTotalPackets := virtualServerTotalPackets r;
     virtualServerTotalBytes := virtualServerTotalBytes r;
     virtualServerActiveConnections := virtualServerActiveConnections r;
     virtualServerConnsPerSec := virtualServerConnsPerSec r;
     virtualServerBytesRead := virtualServerBytesRead r;
     virtualServerBytesWritten := virtualServerBytesWritten r;
     realServerTotalConnections := realServerTotalConnections r;
     realServerTotalPackets := realServerTotalPackets r;
     realServerTotalBytes := realServerTotalBytes r;
     realServerActiveConnections := realServerActiveConnections r;
     realServerConnsPerSec := realServerConnsPerSec r;
     realServerBytesRead := realServerBytesRead r;
     realServerBytesWritten := realServerBytesWritten r |}.

(** The label values the loop bodies pass to [WithLabelValues]. *)
Definition vs_labels (vs : kemp.VS.t) : LabelValues :=
  (kemp.VS.Address vs, strconv_Itoa (kemp.VS.Port vs)).

Definition rs_labels (rs : kemp.RS.t) : LabelValues :=
  (kemp.RS.Address rs, strconv_Itoa (kemp.RS.Port rs)).

(** The body of the loop over [statistics.VirtualServers], lines 156-162. *)
Definition update_vs (r : Registry) (vs : kemp.VS.t) : Registry :=
  {| connsPerSec := connsPerSec r;
     bytesPerSec := bytesPerSec r;
     packetsPerSec := packetsPerSec r;
     virtualServerTotalConnections :=
       set_child (vs_labels vs) (float64_of_int (kemp.VS.TotalConnections vs))
         (virtualServerTotalConnections r);
     virtualServerTotalPackets :=
       set_child (vs_labels vs) (float64_of_int (kemp.VS.TotalPackets vs))
         (virtualServerTotalPackets r);
     virtualServerTotalBytes :=
       set_child (vs_labels vs) (float64_of_int (kemp.VS.TotalBytes vs))
         (virtualServerTotalBytes r);
     virtualServerActiveConnections :=
       set_child (vs_labels vs) (float64_of_int (kemp.VS.ActiveConnections vs))
         (virtualServerActiveConnections r);
     virtualServerConnsPerSec :=
       set_child (vs_labels vs) (float64_of_int (kemp.VS.ConnectionsPerSec vs))
         (virtualServerConnsPerSec r);
     virtualServerBytesRead :=
       set_child (vs_labels vs) (float64_of_int (kemp.VS.BytesRead vs))
         (virtualServerBytesRead r);
     virtualServerBytesWritten :=
       set_child (vs_labels vs) (float64_of_int (kemp.VS.BytesWritten vs))
         (virtualServerBytesWritten r);
     realServerTotalConnections := realServerTotalConnections r;
     realServerTotalPackets := realServerTotalPackets r;
     realServerTotalBytes := realServerTotalBytes r;
     realServerActiveConnections := realServerActiveConnections r;
     realServerConnsPerSec := realServerConnsPerSec r;
     realServerBytesRead := realServerBytesRead r;
     realServerBytesWritten := realServerBytesWritten r |}.

(** The body of the loop over [statistics.RealServers], lines 166-172. *)
Definition update_rs (r : Registry) (rs : kemp.RS.t) : Registry :=
  {| connsPerSec := connsPerSec r;
     bytesPerSec := bytesPerSec r;
     packetsPerSec := packetsPerSec r;
     virtualServerTotalConnections := virtualServerTotalConnections r;
     virtualServerTotalPackets := virtualServerTotalPackets r;
     virtualServerTotalBytes := virtualServerTotalBytes r;
     virtualServerActiveConnections := virtualServerActiveConnections r;
     virtualServerConnsPerSec := virtualServerConnsPerSec r;
     virtualServerBytesRead := virtualServerBytesRead r;
     virtualServerBytesWritten := virtualServerBytesWritten r;
     realServerTotalConnections :=
       set_child (rs_labels rs) (float64_of_int (kemp.RS.TotalConnections rs))
         (realServerTotalConnections r);
     realServerTotalPackets :=
       set_child (rs_labels rs) (float64_of_int (kemp.RS.TotalPackets rs))
         (realServerTotalPackets r);
     realServerTotalBytes :=
       set_child (rs_labels rs) (float64_of_int (kemp.RS.TotalBytes rs))
         (realServerTotalBytes r);
     realServerActiveConnections :=
       set_child (rs_labels rs) (float64_of_int (kemp.RS.ActiveConnections rs))
         (realServerActiveConnections r);
     realServerConnsPerSec :=
       set_child (rs_labels rs) (float64_of_int (kemp.RS.ConnectionsPerSec rs))
         (realServerConnsPerSec r);
     realServerBytesRead :=
       set_child (rs_labels rs) (float64_of_int (kemp.RS.BytesRead rs))
         (realServerBytesRead r);
     realServerBytesWritten :=
       set_child (rs_labels rs) (float64_of_int (kemp.RS.BytesWritten rs))
         (realServerBytesWritten r) |}.

(** Lines 151-173: the totals, then every virtual server in order, then
    every real server in order. *)
Definition update (s : kemp.Statistics) (r : Registry) : Registry :=
  fold_left update_rs (kemp.RealServers s)
    (fold_left update_vs (kemp.VirtualServers s)
       (update_totals (kemp.Totals s) r)).

(** ** The command line *)

(** What [serverRun] reads: the process arguments [os.Args] (through the
    standard [flag] package), the positional arguments cobra left in
    [cmd.Flags().Args()], and the three variables cobra filled from the
    options [--debug], [--wait] and [--port] before it called [serverRun]. *)
Record Invocation : Type := mkInvocation
  { os_Args : list string;
    Flags_Args : list string;
    debug : bool;
    waitSeconds : Z;
    port : Z }.

Definition is_minus (c : Ascii.ascii) : bool := Ascii.eqb c "-"%char.

(** [flag.Parse()]: the standard package parses [os.Args[1:]] against its
    own flag set, on which this file defines nothing.  Parsing stops at the
    first argument that is not of the form [-x...] (shorter than two
    characters, or not starting with [-]), which stays in [flag.Args()]; a
    lone [--] is dropped and stops it too; any other argument is a flag the
    set does not know (or a malformed one), for which the package prints its
    message and usage and exits with status 2 ([None]).  That is the status
    of the Go releases this code was written for; since Go 1.15 the package
    exits with status 0 when the unknown flag is [-h] or [-help]. *)
Definition flag_Parse (arguments : list string) : option (list string) :=
  match arguments with
  | [] => Some []
  | s :: rest =>
      match s with
      | String c (String c' s') =>
          if negb (is_minus c) then Some arguments
          else if is_minus c' && (String.length s' =? 0)%nat then Some rest
          else None
      | _ => Some arguments
      end
  end.

(** [flag.Arg(i)]: the i-th remaining argument, from zero; the empty string
    when there is none. *)
Definition flag_Arg (args : list string) (i : nat) : string :=
  nth i args "".

(** The [kemp.Config] of lines 136-141. *)
Definition client_config (inv : Invocation) (args : list string) : kemp.Config :=
  {| kemp.Endpoint := flag_Arg args 1;
     kemp.User := flag_Arg args 2;
     kemp.Password := flag_Arg args 3;
     kemp.Debug := debug inv |}.

(** ** The process *)

(** One answer of [client.GetStatistics()]. *)
Inductive FetchResult : Type :=
  | Fetched (statistics : kemp.Statistics)
  | FetchError (err : string).

(** [time.Second * time.Duration(waitSeconds)], in nanoseconds: an [int64]
    product. *)
Definition sleep_duration (wait : Z) : Z := wrap64 (1000000000 * wait).

(** What the process does to the outside, in program order. *)
Inductive Event : Type :=
  | FlagUsage                          (* flag.Parse fails: message and usage *)
  | Help                               (* cmd.Help() *)
  | Exit (code : Z)                    (* os.Exit(code) *)
  | NewClient (config : kemp.Config)   (* kemp.NewClient(config) *)
  | GetStatistics                      (* client.GetStatistics() *)
  | Println (msg err : string)         (* log.Println(msg, err) *)
  | Update (statistics : kemp.Statistics)  (* lines 151-173 on the registry *)
  | Sleep (nanoseconds : Z)            (* time.Sleep(d) *)
  | Print (msg : string) (n : Z)       (* log.Print(msg, n) *)
  | ListenAndServe (port : Z).         (* http.ListenAndServe *)

(** The process: the registry its scrapes read, the events of [serverRun]'s
    own goroutine and of the collector goroutine, and the exit status once
    [os.Exit] has been called. *)
Record Process : Type := mkProcess
  { registry : Registry;
    main_events : list Event;
    collector_events : list Event;
    exited : option Z }.

(** The loop of lines 144-176, against the answers the Statistics Source
    gives to its successive calls.  When the answers are used up the process
    is observed as the last sleep returns. *)
Fixpoint collector (wait : Z) (source : list FetchResult) (p : Process) : Process :=
  match source with
  | [] => p
  | FetchError err :: _ =>
      {| registry := registry p;
         main_events := main_events p;
         collector_events :=
           collector_events p ++
             [GetStatistics; Println "Error getting statistics " err; Exit 1];
         exited := Some 1 |}
  | Fetched statistics :: source' =>
      collector wait source'
        {| registry := update statistics (registry p);
           main_events := main_events p;
           collector_events :=
             collector_events p ++
               [GetStatistics; Update statistics; Sleep (sleep_duration wait)];
           exited := None |}
  end.

(** [serverRun], started on the registry [init] has set up.  Registering
    the two HTTP handlers has no effect of its own before
    [http.ListenAndServe] and is not an event. *)
Definition serverRun (inv : Invocation) (source : list FetchResult) : Process :=
  match flag_Parse (tail (os_Args inv)) with
  | None =>
      {| registry := empty_registry;
         main_events := [FlagUsage; Exit 2];
         collector_events := [];
         exited := Some 2 |}
  | Some args =>
      if negb (length (Flags_Args inv) =? 3)%nat then
        {| registry := empty_registry;
           main_events := [Help; Exit 1];
           collector_events := [];
           exited := Some 1 |}
      else
        collector (waitSeconds inv) source
          {| registry := empty_registry;
             main_events :=
               [NewClient (client_config inv args);
                Print "Listening on port " (port inv);
                ListenAndServe (port inv)];
             collector_events := [];
             exited := None |}
  end.

(** ** The metrics by name *)

(** The seven statistics kept per server. *)
Inductive Stat : Type :=
  | TotalConnections | TotalPackets | TotalBytes | ActiveConnections
  | ConnsPerSec | BytesRead | BytesWritten.

(** The fourteen gauge vectors. *)
Inductive Vec : Type :=
  | virtualServer (st : Stat)
  | realServer (st : Stat).

Definition vec (m : Vec) (r : Registry) : GaugeVec :=
  match m with
  | virtualServer TotalConnections => virtualServerTotalConnections r
  | virtualServer TotalPackets => virtualServerTotalPackets r
  | virtualServer TotalBytes => virtualServerTotalBytes r
  | virtualServer ActiveConnections => virtualServerActiveConnections r
  | virtualServer ConnsPerSec => virtualServerConnsPerSec r
  | virtualServer BytesRead => virtualServerBytesRead r
  | virtualServer BytesWritten => virtualServerBytesWritten r
  | realServer TotalConnections => realServerTotalConnections r
  | realServer TotalPackets => realServerTotalPackets r
  | realServer TotalBytes => realServerTotalBytes r
  | realServer ActiveConnections => realServerActiveConnections r
  | realServer ConnsPerSec => realServerConnsPerSec r
  | realServer BytesRead => realServerBytesRead r
  | realServer BytesWritten => realServerBytesWritten r
  end.

(** The field of a record that feeds a statistic. *)
Definition vs_stat (st : Stat) (vs : kemp.VS.t) : Z :=
  match st with
  | TotalConnections => kemp.VS.TotalConnections vs
  | TotalPackets => kemp.VS.TotalPackets vs
  | TotalBytes => kemp.VS.TotalBytes vs
  | ActiveConnections => kemp.VS.ActiveConnections vs
  | ConnsPerSec => kemp.VS.ConnectionsPerSec vs
  | BytesRead => kemp.VS.BytesRead vs
  | BytesWritten => kemp.VS.BytesWritten vs
  end.

Definition rs_stat (st : Stat) (rs : kemp.RS.t) : Z :=
  match st with
  | TotalConnections => kemp.RS.TotalConnections rs
  | TotalPackets => kemp.RS.TotalPackets rs
  | TotalBytes => kemp.RS.TotalBytes rs
  | ActiveConnections => kemp.RS.ActiveConnections rs
  | ConnsPerSec => kemp.RS.ConnectionsPerSec rs
  | BytesRead => kemp.RS.BytesRead rs
  | BytesWritten => kemp.RS.BytesWritten rs
  end.

(** What a scrape reads for the series of metric [m] with the labels
    [address] and [port]: nothing when the series does not exist. *)
Definition series (m : Vec) (r : Registry) (address : string) (p : Z) : option float64 :=
  vec m r !! (address, strconv_Itoa p).

(** The [Set] calls one cycle makes on metric [m], in program order. *)
Definition writes (m : Vec) (s : kemp.Statistics) : list (LabelValues * float64) :=
  match m with
  | virtualServer st =>
      map (fun vs => (vs_labels vs, float64_of_int (vs_stat st vs)))
        (kemp.VirtualServers s)
  | realServer st =>
      map (fun rs => (rs_labels rs, float64_of_int (rs_stat st rs)))
        (kemp.RealServers s)
  end.

(** Replaying [Set] calls on one vector. *)
Definition replay (ws : list (LabelValues * float64)) (v : GaugeVec) : GaugeVec :=
  fold_left (fun acc w => <[w.1 := w.2]> acc) ws v.

(** The last value a list of [Set] calls gives to [lvs], if any. *)
Fixpoint last_write (lvs : LabelValues) (ws : list (LabelValues * float64)) : option float64 :=
  match ws with
  | [] => None
  | w :: ws' =>
      match last_write lvs ws' with
      | Some x => Some x
      | None => if decide (w.1 = lvs) then Some w.2 else None
      end
  end.

(** The keys of the two collections of a snapshot. *)
Definition vs_keys (s : kemp.Statistics) : list (string * Z) :=
  map (fun vs => (kemp.VS.Address vs, kemp.VS.Port vs)) (kemp.VirtualServers s).

Definition rs_keys (s : kemp.Statistics) : list (string * Z) :=
  map (fun rs => (kemp.RS.Address rs, kemp.RS.Port rs)) (kemp.RealServers s).

Definition keys (m : Vec) (s : kemp.Statistics) : list (string * Z) :=
  match m with
  | virtualServer _ => vs_keys s
  | realServer _ => rs_keys s
  end.

(** The answers of the Statistics Source up to its first error, and that
    error. *)
Fixpoint successes (source : list FetchResult) : list kemp.Statistics :=
  match source with
  | Fetched s :: source' => s :: successes source'
  | _ => []
  end.

Fixpoint first_error (source : list FetchResult) : option string :=
  match source with
  | [] => None
  | Fetched _ :: source' => first_error source'
  | FetchError err :: _ => Some err
  end.

(** The events of one successful cycle, and of the failing one. *)
Definition cycle (wait : Z) (s : kemp.Statistics) : list Event :=
  [GetStatistics; Update s; Sleep (sleep_duration wait)].

Definition failing_cycle (err : string) : list Event :=
  [GetStatistics; Println "Error getting statistics " err; Exit 1].

(** ** Sample data *)

(** Scenario A of the specification, the unnamed fields filled in. *)
Definition web80 : kemp.VS.t :=
  kemp.VS.mk "10.0.0.1" 80 100 7000 900000 3 2 400000 500000.

Definition scenarioA : kemp.Statistics :=
  kemp.mkStatistics (kemp.T.mk 5 1000 50) [web80] [].

(** Scenario B: the same virtual server, now at 150 total connections. *)
Definition web80' : kemp.VS.t :=
  kemp.VS.mk "10.0.0.1" 80 150 7100 910000 4 2 410000 510000.

Definition scenarioB : kemp.Statistics :=
  kemp.mkStatistics (kemp.T.mk 6 1100 55) [web80'] [].

(** A snapshot without that server, and one where a real server has the
    address and port of the virtual server. *)
Definition scenario_gone : kemp.Statistics :=
  kemp.mkStatistics (kemp.T.mk 1 10 1)
    [kemp.VS.mk "10.0.0.2" 443 9 90 900 1 1 40 50] [].

Definition backend80 : kemp.RS.t :=
  kemp.RS.mk "10.0.0.1" 80 41 4100 410000 1 1 200000 300000.

Definition scenario_shared : kemp.Statistics :=
  kemp.mkStatistics (kemp.T.mk 5 1000 50) [web80] [backend80].

(** [kemp-exporter server lb.example admin secret]. *)
Definition plain_invocation : Invocation :=
  {| os_Args := ["kemp-exporter"; "server"; "lb.example"; "admin"; "secret"];
     Flags_Args := ["lb.example"; "admin"; "secret"];
     debug := false; waitSeconds := 10; port := 8000 |}.

(** [kemp-exporter server --debug lb.example admin secret]: cobra takes
    [--debug] as the option and leaves the three positional arguments. *)
Definition debug_first_invocation : Invocation :=
  {| os_Args := ["kemp-exporter"; "server"; "--debug"; "lb.example"; "admin"; "secret"];
     Flags_Args := ["lb.example"; "admin"; "secret"];
     debug := true; waitSeconds := 10; port := 8000 |}.

(** [kemp-exporter server lb.example admin]: a positional argument short. *)
Definition short_invocation : Invocation :=
  {| os_Args := ["kemp-exporter"; "server"; "lb.example"; "admin"];
     Flags_Args := ["lb.example"; "admin"];
     debug := false; waitSeconds := 10; port := 8000 |}.

(** ** Registration ([init], lines 100-126) *)

(** The seventeen collectors declared at lines 28-97. *)
Inductive Metric : Type :=
  | totals_connsPerSec
  | totals_bytesPerSec
  | totals_packetsPerSec
  | gauge_vec (m : Vec).

(** [GaugeOpts.Name] of each collector. *)
Definition Name (c : Metric) : string :=
  match c with
  | totals_connsPerSec => "kemp_totals_connections_per_second"
  | totals_bytesPerSec => "kemp_totals_bytes_per_second"
  | totals_packetsPerSec => "kemp_totals_packets_per_second"
  | gauge_vec (virtualServer TotalConnections) => "kemp_virtual_server_total_connections"
  | gauge_vec (virtualServer TotalPackets) => "kemp_virtual_server_total_packets"
  | gauge_vec (virtualServer TotalBytes) => "kemp_virtual_server_total_bytes"
  | gauge_vec (virtualServer ActiveConnections) => "kemp_virtual_server_active_connections"
  | gauge_vec (virtualServer ConnsPerSec) => "kemp_virtual_server_connections_per_second"
  | gauge_vec (virtualServer BytesRead) => "kemp_virtual_server_bytes_read"
  | gauge_vec (virtualServer BytesWritten) => "kemp_virtual_server_bytes_written"
  | gauge_vec (realServer TotalConnections) => "kemp_real_server_total_connections"
  | gauge_vec (realServer TotalPackets) => "kemp_real_server_total_packets"
  | gauge_vec (realServer TotalBytes) => "kemp_real_server_total_bytes"
  | gauge_vec (realServer ActiveConnections) => "kemp_real_server_active_connections"
  | gauge_vec (realServer ConnsPerSec) => "kemp_real_server_connections_per_second"
  | gauge_vec (realServer BytesRead) => "kemp_real_server_bytes_read"
  | gauge_vec (realServer BytesWritten) => "kemp_real_server_bytes_written"
  end.

(** [GaugeOpts.Help] of each collector. *)
Definition Help_text (c : Metric) : string :=
  match c with
  | totals_connsPerSec => "The number of connections per second."
  | totals_bytesPerSec => "The number of bytes per second."
  | totals_packetsPerSec => "The number of packets per second."
  | gauge_vec (virtualServer TotalConnections) =>
      "The number of total connections per virtual server."
  | gauge_vec (virtualServer TotalPackets) =>
      "The number of total packets per virtual server."
  | gauge_vec (virtualServer TotalBytes) =>
      "The number of total bytes per virtual server."
  | gauge_vec (virtualServer ActiveConnections) =>
      "The number of active connections per virtual server."
  | gauge_vec (virtualServer ConnsPerSec) =>
      "The number of connections per second per virtual server."
  | gauge_vec (virtualServer BytesRead) =>
      "The number of bytes read per virtual server."
  | gauge_vec (virtualServer BytesWritten) =>
      "The number of bytes written per virtual server"
  | gauge_vec (realServer TotalConnections) =>
      "The number of total connections per real server."
  | gauge_vec (realServer TotalPackets) =>
      "The number of total packets per real server."
  | gauge_vec (realServer TotalBytes) =>
      "The number of total bytes per real server."
  | gauge_vec (realServer ActiveConnections) =>
      "The number of active connections per real server."
  | gauge_vec (realServer ConnsPerSec) =>
      "The number of connections per second per real server."
  | gauge_vec (realServer BytesRead) =>
      "The number of bytes read per real server."
  | gauge_vec (realServer BytesWritten) =>
      "The number of bytes written per real server"
  end.

(** The label names a collector is declared with. *)
Definition label_names (c : Metric) : list string :=
  match c with
  | gauge_vec _ => ["address"; "port"]
  | _ => []
  end.

(** The characters of metric and label names: [is_letter] takes the
    underscore for a letter. *)
Definition is_letter (c : Ascii.ascii) : bool :=
  let n := Ascii.N_of_ascii c in
  ((97 <=? n) && (n <=? 122) || (65 <=? n) && (n <=? 90) || (n =? 95))%N.

Definition is_digit (c : Ascii.ascii) : bool :=
  let n := Ascii.N_of_ascii c in ((48 <=? n) && (n <=? 57))%N.

Definition is_colon (c : Ascii.ascii) : bool := (Ascii.N_of_ascii c =? 58)%N.

Fixpoint all_chars (ok : Ascii.ascii -> bool) (s : string) : bool :=
  match s with
  | EmptyString => true
  | String c s' => ok c && all_chars ok s'
  end.

(** A metric name: a letter, [_] or [:], then letters, digits, [_], [:]. *)
Definition valid_metric_name (s : string) : bool :=
  match s with
  | EmptyString => false
  | String c s' =>
      (is_letter c || is_colon c)
      && all_chars (fun c' => is_letter c' || is_digit c' || is_colon c') s'
  end.

(** A label name: a letter or [_], then letters, digits, [_]; names that
    start with [__] are reserved. *)
Definition valid_label_name (s : string) : bool :=
  match s with
  | EmptyString => false
  | String c s' =>
      is_letter c && all_chars (fun c' => is_letter c' || is_digit c') s'
      && negb (String.prefix "__" s)
  end.

(** The descriptor check of the metrics library: a valid name, a help text,
    valid label names without repetition.  (Later releases of the library
    accept an empty help text; every help text here is non-empty.) *)
Definition valid_desc (c : Metric) : bool :=
  valid_metric_name (Name c)
  && negb (String.eqb (Help_text c) "")
  && forallb valid_label_name (label_names c)
  && bool_decide (NoDup (label_names c)).

(** [prometheus.MustRegister(c)] on the names the default registry already
    holds: [None] is the panic, for a descriptor that fails the check or a
    name that is registered already. *)
Definition MustRegister (c : Metric) (names : gset string) : option (gset string) :=
  if valid_desc c && negb (bool_decide (Name c ∈ names))
  then Some ({[Name c]} ∪ names)
  else None.

Fixpoint MustRegister_each (cs : list Metric) (names : gset string) : option (gset string) :=
  match cs with
  | [] => Some names
  | c :: cs' =>
      match MustRegister c names with
      | Some names' => MustRegister_each cs' names'
      | None => None
      end
  end.

(** The collectors in the order lines 107-125 register them. *)
Definition registration_order : list Metric :=
  [totals_connsPerSec; totals_bytesPerSec; totals_packetsPerSec;
   gauge_vec (virtualServer TotalConnections);
   gauge_vec (virtualServer TotalPackets);
   gauge_vec (virtualServer TotalBytes);
   gauge_vec (virtualServer ActiveConnections);
   gauge_vec (virtualServer ConnsPerSec);
   gauge_vec (virtualServer BytesRead);
   gauge_vec (virtualServer BytesWritten);
   gauge_vec (realServer TotalConnections);
   gauge_vec (realServer TotalPackets);
   gauge_vec (realServer TotalBytes);
   gauge_vec (realServer ActiveConnections);
   gauge_vec (realServer ConnsPerSec);
   gauge_vec (realServer BytesRead);
   gauge_vec (realServer BytesWritten)].

(** The registrations of [init], on the names the default registry holds
    when the package is initialised.  (The three flags [init] declares,
    [--port] 8000, [--wait] 10 and [--debug] false, reach [serverRun]
    through the [Invocation].) *)
Definition init (names : gset string) : option (gset string) :=
  MustRegister_each registration_order names.

(** ** Views used by the properties *)

(** The seven vectors of a family have children for the same label values. *)
Definition uniform (r : Registry) : Prop :=
  forall st st' : Stat,
    dom (vec (virtualServer st) r) = dom (vec (virtualServer st') r) /\
    dom (vec (realServer st) r) = dom (vec (realServer st') r).

(** Every field of a snapshot that feeds a gauge converts to [float64]
    without rounding. *)
Definition exact (x : Z) : Prop := Z.abs x <= 2 ^ 53.

(** A snapshot with the same totals and the collections given. *)
Definition with_servers (s : kemp.Statistics)
    (vss : list kemp.VS.t) (rss : list kemp.RS.t) : kemp.Statistics :=
  kemp.mkStatistics (kemp.Totals s) vss rss.

(** A second virtual server, and scenario A's snapshot with both servers,
    in either order. *)
Definition web443 : kemp.VS.t :=
  kemp.VS.mk "10.0.0.1" 443 20 2000 300000 1 1 100000 200000.

Definition scenario_two : kemp.Statistics :=
  kemp.mkStatistics (kemp.T.mk 5 1000 50) [web80; web443] [].

(** [kemp-exporter --port=9000 server lb.example admin secret]: cobra
    accepts the option in front of the sub-command name. *)
Definition option_first_invocation : Invocation :=
  {| os_Args := ["kemp-exporter"; "--port=9000"; "server"; "lb.example"; "admin"; "secret"];
     Flags_Args := ["lb.example"; "admin"; "secret"];
     debug := false; waitSeconds := 10; port := 9000 |}.

(** * Properties *)

(** ** Conversions *)

Lemma float64_of_int_exact (x : Z) :
  Z.abs x <= 2 ^ 53 -> float64_of_int x = x.
Proof.
  intros Hx.
  destruct (Z.eq_dec (Z.abs x) (2 ^ 53)) as [E | E].
  - assert (Hc : x = 2 ^ 53 \/ x = - 2 ^ 53) by lia.
    destruct Hc as [-> | ->]; vm_compute; reflexivity.
  - unfold float64_of_int.
    destruct (Z.leb_spec (Z.log2 (Z.abs x) - 52) 0) as [_ | He]; [reflexivity |].
    exfalso.
    destruct (Z.eq_dec (Z.abs x) 0) as [E0 | E0].
    + rewrite E0 in He. change (Z.log2 0) with 0 in He. lia.
    + assert (Hlt : Z.abs x < 2 ^ 53) by lia.
      apply Z.log2_lt_pow2 in Hlt; lia.
Qed.

Lemma strconv_Itoa_inj (i j : Z) : strconv_Itoa i = strconv_Itoa j -> i = j.
Proof.
  unfold strconv_Itoa. intros E.
  apply (f_equal NilEmpty.int_of_string) in E.
  rewrite !NilEmpty.isi in E. injection E as E.
  rewrite <- (DecimalZ.of_to i), <- (DecimalZ.of_to j). now rewrite E.
Qed.

Lemma labels_inj (a b : string) (p q : Z) :
  (a, strconv_Itoa p) = (b, strconv_Itoa q) -> (a, p) = (b, q).
Proof.
  intros E. injection E as Ea Ep. apply strconv_Itoa_inj in Ep. congruence.
Qed.

Lemma sleep_duration_seconds (wait : Z) :
  - 9223372036 <= wait <= 9223372036 ->
  sleep_duration wait = 1000000000 * wait.
Proof.
  intros Hw. unfold sleep_duration, wrap64.
  rewrite Z.mod_small; lia.
Qed.

Example strconv_Itoa_samples :
  strconv_Itoa 80 = "80" /\ strconv_Itoa 8000 = "8000" /\
  strconv_Itoa 0 = "0" /\ strconv_Itoa (- 15) = "-15".
Proof. repeat split. Qed.

Example float64_of_int_samples :
  float64_of_int 150 = 150 /\
  float64_of_int (2 ^ 53 + 1) = 2 ^ 53 /\
  float64_of_int (2 ^ 53 + 3) = 2 ^ 53 + 4 /\
  float64_of_int (2 ^ 63 - 1) = 2 ^ 63.
Proof. vm_compute. repeat split. Qed.

Example sleep_duration_samples :
  sleep_duration 10 = 10000000000 /\
  sleep_duration 9223372037 = - 9223372036709551616.
Proof. vm_compute. repeat split. Qed.

(** ** Gauge vectors *)

Lemma set_child_insert (lvs : LabelValues) (x : float64) (v : GaugeVec) :
  set_child lvs x v = <[lvs := x]> v.
Proof.
  unfold set_child, Gauge_Set, WithLabelValues.
  apply map_eq. intros k.
  destruct (v !! lvs) as [y |] eqn:E.
  - rewrite lookup_alter, lookup_insert.
    destruct (decide (lvs = k)) as [<- |]; [rewrite E |]; reflexivity.
  - rewrite alter_insert_eq. reflexivity.
Qed.

Lemma lookup_replay (ws : list (LabelValues * float64)) (v : GaugeVec) (k : LabelValues) :
  replay ws v !! k = match last_write k ws with Some x => Some x | None => v !! k end.
Proof.
  revert v. induction ws as [| w ws IH]; intros v; [reflexivity |].
  unfold replay in *. simpl. rewrite IH.
  destruct (last_write k ws); [reflexivity |].
  rewrite lookup_insert. destruct (decide (w.1 = k)); reflexivity.
Qed.

Lemma replay_twice (ws : list (LabelValues * float64)) (v : GaugeVec) :
  replay ws (replay ws v) = replay ws v.
Proof.
  apply map_eq. intros k. rewrite !lookup_replay.
  destruct (last_write k ws); reflexivity.
Qed.

Lemma last_write_None (k : LabelValues) (ws : list (LabelValues * float64)) :
  ~ In k (map fst ws) -> last_write k ws = None.
Proof.
  induction ws as [| w ws IH]; simpl; intros Hk; [reflexivity |].
  rewrite IH by tauto.
  destruct (decide (w.1 = k)); [tauto | reflexivity].
Qed.

Lemma last_write_Some (k : LabelValues) (ws : list (LabelValues * float64)) :
  In k (map fst ws) -> exists x, last_write k ws = Some x.
Proof.
  induction ws as [| w ws IH]; simpl; [tauto |].
  intros [Hk | Hk].
  - destruct (last_write k ws); [eauto |].
    destruct (decide (w.1 = k)); [eauto | contradiction].
  - destruct (IH Hk) as [x ->]. eauto.
Qed.

Lemma last_write_app (k : LabelValues) (pre post : list (LabelValues * float64)) :
  last_write k (pre ++ post) =
  match last_write k post with Some x => Some x | None => last_write k pre end.
Proof.
  induction pre as [| w pre IH]; simpl.
  - destruct (last_write k post); reflexivity.
  - rewrite IH. destruct (last_write k post); reflexivity.
Qed.

(** ** The update, metric by metric *)

Lemma vec_update_totals (m : Vec) (t : kemp.T.t) (r : Registry) :
  vec m (update_totals t r) = vec m r.
Proof. destruct m as [[] | []]; reflexivity. Qed.

Lemma vec_update_vs (m : Vec) (r : Registry) (vs : kemp.VS.t) :
  vec m (update_vs r vs) =
  match m with
  | virtualServer st => <[vs_labels vs := float64_of_int (vs_stat st vs)]> (vec m r)
  | realServer _ => vec m r
  end.
Proof. destruct m as [[] | []]; simpl; rewrite ?set_child_insert; reflexivity. Qed.

Lemma vec_update_rs (m : Vec) (r : Registry) (rs : kemp.RS.t) :
  vec m (update_rs r rs) =
  match m with
  | virtualServer _ => vec m r
  | realServer st => <[rs_labels rs := float64_of_int (rs_stat st rs)]> (vec m r)
  end.
Proof. destruct m as [[] | []]; simpl; rewrite ?set_child_insert; reflexivity. Qed.

Lemma vec_fold_update_vs (m : Vec) (l : list kemp.VS.t) (r : Registry) :
  vec m (fold_left update_vs l r) =
  match m with
  | virtualServer st =>
      replay (map (fun vs => (vs_labels vs, float64_of_int (vs_stat st vs))) l) (vec m r)
  | realServer _ => vec m r
  end.
Proof.
  revert r. induction l as [| vs l IH]; intros r.
  - destruct m; reflexivity.
  - simpl fold_left. rewrite IH, vec_update_vs. destruct m; reflexivity.
Qed.

Lemma vec_fold_update_rs (m : Vec) (l : list kemp.RS.t) (r : Registry) :
  vec m (fold_left update_rs l r) =
  match m with
  | virtualServer _ => vec m r
  | realServer st =>
      replay (map (fun rs => (rs_labels rs, float64_of_int (rs_stat st rs))) l) (vec m r)
  end.
Proof.
  revert r. induction l as [| rs l IH]; intros r.
  - destruct m; reflexivity.
  - simpl fold_left. rewrite IH, vec_update_rs. destruct m; reflexivity.
Qed.

(** One cycle replays, on every vector, the [Set] calls made on it. *)
Lemma vec_update (m : Vec) (s : kemp.Statistics) (r : Registry) :
  vec m (update s r) = replay (writes m s) (vec m r).
Proof.
  unfold update. rewrite vec_fold_update_rs, vec_fold_update_vs, vec_update_totals.
  destruct m; reflexivity.
Qed.

Lemma gauges_fold_update_vs (l : list kemp.VS.t) (r : Registry) :
  connsPerSec (fold_left update_vs l r) = connsPerSec r /\
  bytesPerSec (fold_left update_vs l r) = bytesPerSec r /\
  packetsPerSec (fold_left update_vs l r) = packetsPerSec r.
Proof.
  revert r. induction l as [| vs l IH]; intros r; [auto |].
  simpl fold_left. destruct (IH (update_vs r vs)) as (-> & -> & ->). auto.
Qed.

Lemma gauges_fold_update_rs (l : list kemp.RS.t) (r : Registry) :
  connsPerSec (fold_left update_rs l r) = connsPerSec r /\
  bytesPerSec (fold_left update_rs l r) = bytesPerSec r /\
  packetsPerSec (fold_left update_rs l r) = packetsPerSec r.
Proof.
  revert r. induction l as [| rs l IH]; intros r; [auto |].
  simpl fold_left. destruct (IH (update_rs r rs)) as (-> & -> & ->). auto.
Qed.

Lemma gauges_update (s : kemp.Statistics) (r : Registry) :
  connsPerSec (update s r) = float64_of_int (kemp.T.ConnectionsPerSec (kemp.Totals s)) /\
  bytesPerSec (update s r) = float64_of_int (kemp.T.BytesPerSec (kemp.Totals s)) /\
  packetsPerSec (update s r) = float64_of_int (kemp.T.PacketsPerSec (kemp.Totals s)).
Proof.
  unfold update.
  destruct (gauges_fold_update_rs (kemp.RealServers s)
              (fold_left update_vs (kemp.VirtualServers s)
                 (update_totals (kemp.Totals s) r))) as (-> & -> & ->).
  destruct (gauges_fold_update_vs (kemp.VirtualServers s)
              (update_totals (kemp.Totals s) r)) as (-> & -> & ->).
  auto.
Qed.

(** Two registries with the same gauges and the same vectors are equal. *)
Lemma registry_eq (r1 r2 : Registry) :
  connsPerSec r1 = connsPerSec r2 ->
  bytesPerSec r1 = bytesPerSec r2 ->
  packetsPerSec r1 = packetsPerSec r2 ->
  (forall m, vec m r1 = vec m r2) ->
  r1 = r2.
Proof.
  intros Hc Hb Hp Hv.
  pose proof (fun st => Hv (virtualServer st)) as Hvs.
  pose proof (fun st => Hv (realServer st)) as Hrs.
  destruct r1, r2; simpl in *.
  f_equal; first [assumption
                 | apply (Hvs TotalConnections) | apply (Hvs TotalPackets)
                 | apply (Hvs TotalBytes) | apply (Hvs ActiveConnections)
                 | apply (Hvs ConnsPerSec) | apply (Hvs BytesRead)
                 | apply (Hvs BytesWritten)
                 | apply (Hrs TotalConnections) | apply (Hrs TotalPackets)
                 | apply (Hrs TotalBytes) | apply (Hrs ActiveConnections)
                 | apply (Hrs ConnsPerSec) | apply (Hrs BytesRead)
                 | apply (Hrs BytesWritten)].
Qed.

Lemma last_write_last (k : LabelValues) (x : float64)
    (pre post : list (LabelValues * float64)) :
  ~ In k (map fst post) ->
  last_write k (pre ++ (k, x) :: post) = Some x.
Proof.
  intros Hk. rewrite last_write_app. simpl.
  rewrite (last_write_None k post Hk).
  destruct (decide (k = k)); [reflexivity | contradiction].
Qed.

Lemma in_vs_labels (l : list kemp.VS.t) (a : string) (p : Z) :
  In (a, strconv_Itoa p) (map vs_labels l) <->
  In (a, p) (map (fun vs => (kemp.VS.Address vs, kemp.VS.Port vs)) l).
Proof.
  rewrite !in_map_iff. split; intros (vs & E & Hin); exists vs; split; auto.
  - now apply labels_inj.
  - unfold vs_labels. congruence.
Qed.

Lemma in_rs_labels (l : list kemp.RS.t) (a : string) (p : Z) :
  In (a, strconv_Itoa p) (map rs_labels l) <->
  In (a, p) (map (fun rs => (kemp.RS.Address rs, kemp.RS.Port rs)) l).
Proof.
  rewrite !in_map_iff. split; intros (rs & E & Hin); exists rs; split; auto.
  - now apply labels_inj.
  - unfold rs_labels. congruence.
Qed.

(** The label values written on metric [m] are those of the keys of its
    collection. *)
Lemma in_writes_keys (m : Vec) (s : kemp.Statistics) (a : string) (p : Z) :
  In (a, strconv_Itoa p) (map fst (writes m s)) <-> In (a, p) (keys m s).
Proof.
  destruct m as [st | st]; simpl; rewrite map_map; simpl.
  - apply in_vs_labels.
  - apply in_rs_labels.
Qed.

(** ** The update cycle *)

(** C1. One update cycle sets the three unlabeled gauges to the (float64
    conversions of the) totals of the snapshot, and every record of the two
    collections sets the seven labeled gauges of its family at the label
    values (address, decimal form of the port): after the cycle each of them
    shows the record's value, for every record that no later record of the
    same collection with the same key overwrites. *)
Theorem update_sets_every_gauge (s : kemp.Statistics) (r : Registry) :
  connsPerSec (update s r) = float64_of_int (kemp.T.ConnectionsPerSec (kemp.Totals s)) /\
  bytesPerSec (update s r) = float64_of_int (kemp.T.BytesPerSec (kemp.Totals s)) /\
  packetsPerSec (update s r) = float64_of_int (kemp.T.PacketsPerSec (kemp.Totals s)) /\
  (forall (st : Stat) (pre : list kemp.VS.t) (vs : kemp.VS.t) (post : list kemp.VS.t),
      kemp.VirtualServers s = pre ++ vs :: post ->
      ~ In (kemp.VS.Address vs, kemp.VS.Port vs)
           (map (fun vs' => (kemp.VS.Address vs', kemp.VS.Port vs')) post) ->
      vec (virtualServer st) (update s r)
        !! (kemp.VS.Address vs, strconv_Itoa (kemp.VS.Port vs))
      = Some (float64_of_int (vs_stat st vs))) /\
  (forall (st : Stat) (pre : list kemp.RS.t) (rs : kemp.RS.t) (post : list kemp.RS.t),
      kemp.RealServers s = pre ++ rs :: post ->
      ~ In (kemp.RS.Address rs, kemp.RS.Port rs)
           (map (fun rs' => (kemp.RS.Address rs', kemp.RS.Port rs')) post) ->
      vec (realServer st) (update s r)
        !! (kemp.RS.Address rs, strconv_Itoa (kemp.RS.Port rs))
      = Some (float64_of_int (rs_stat st rs))).
Proof.
  destruct (gauges_update s r) as (Hc & Hb & Hp).
  split; [exact Hc |]. split; [exact Hb |]. split; [exact Hp |]. split.
  - intros st pre vs post Hl Hlast.
    rewrite vec_update, lookup_replay. simpl writes. rewrite Hl, map_app. simpl map.
    unfold vs_labels at 2.
    rewrite last_write_last; [reflexivity |].
    rewrite map_map. simpl. now rewrite in_vs_labels.
  - intros st pre rs post Hl Hlast.
    rewrite vec_update, lookup_replay. simpl writes. rewrite Hl, map_app. simpl map.
    unfold rs_labels at 2.
    rewrite last_write_last; [reflexivity |].
    rewrite map_map. simpl. now rewrite in_rs_labels.
Qed.

Lemma update_sets_every_gauge_witness :
  connsPerSec (update scenarioA empty_registry) = float64_of_int 5 /\
  bytesPerSec (update scenarioA empty_registry) = float64_of_int 1000 /\
  packetsPerSec (update scenarioA empty_registry) = float64_of_int 50 /\
  vec (virtualServer TotalConnections) (update scenarioA empty_registry)
    !! ("10.0.0.1", strconv_Itoa 80) = Some (float64_of_int 100).
Proof.
  destruct (update_sets_every_gauge scenarioA empty_registry)
    as (Hc & Hb & Hp & Hvs & _).
  split; [exact Hc |]. split; [exact Hb |]. split; [exact Hp |].
  apply (Hvs TotalConnections [] web80 []).
  - reflexivity.
  - simpl. tauto.
Defined.

(** Scenario A, evaluated. *)
Example scenario_A :
  let r := update scenarioA empty_registry in
  connsPerSec r = 5 /\ bytesPerSec r = 1000 /\ packetsPerSec r = 50 /\
  virtualServerTotalConnections r !! ("10.0.0.1", "80") = Some 100 /\
  series (virtualServer BytesWritten) r "10.0.0.1" 80 = Some 500000 /\
  series (realServer TotalConnections) r "10.0.0.1" 80 = None.
Proof. vm_compute. repeat split. Qed.

(** C4. Applying a snapshot twice in a row leaves the registry as applying
    it once does. *)
Theorem update_idempotent (s : kemp.Statistics) (r : Registry) :
  update s (update s r) = update s r.
Proof.
  destruct (gauges_update s r) as (Hc & Hb & Hp).
  destruct (gauges_update s (update s r)) as (Hc' & Hb' & Hp').
  apply registry_eq; try congruence.
  intros m. rewrite !vec_update. apply replay_twice.
Qed.

(** C5. A [Set] on the series of key (a, p) leaves the series of the same
    metric at every other key (b, q) as it was: for the single call, and for
    the seven calls a virtual-server or a real-server record makes. *)
Theorem label_isolation (m : Vec) (r : Registry) (a b : string) (p q : Z) :
  (a, p) <> (b, q) ->
  (forall (x : float64) (v : GaugeVec),
      set_child (a, strconv_Itoa p) x v !! (b, strconv_Itoa q)
      = v !! (b, strconv_Itoa q)) /\
  (forall vs : kemp.VS.t,
      kemp.VS.Address vs = a -> kemp.VS.Port vs = p ->
      series m (update_vs r vs) b q = series m r b q) /\
  (forall rs : kemp.RS.t,
      kemp.RS.Address rs = a -> kemp.RS.Port rs = p ->
      series m (update_rs r rs) b q = series m r b q).
Proof.
  intros Hne.
  assert (Hl : (a, strconv_Itoa p) <> (b, strconv_Itoa q)).
  { intros E. apply Hne. now apply labels_inj. }
  split; [| split].
  - intros x v. rewrite set_child_insert. now apply lookup_insert_ne.
  - intros vs <- <-. unfold series. rewrite vec_update_vs.
    destruct m; [| reflexivity]. now apply lookup_insert_ne.
  - intros rs <- <-. unfold series. rewrite vec_update_rs.
    destruct m; [reflexivity |]. now apply lookup_insert_ne.
Qed.

Lemma label_isolation_witness :
  series (virtualServer TotalConnections)
    (update_vs (update scenario_gone empty_registry) web80) "10.0.0.2" 443
  = series (virtualServer TotalConnections)
      (update scenario_gone empty_registry) "10.0.0.2" 443.
Proof.
  refine (proj1 (proj2 (label_isolation (virtualServer TotalConnections)
            (update scenario_gone empty_registry) "10.0.0.1" "10.0.0.2" 80 443 _))
            web80 _ _).
  - discriminate.
  - reflexivity.
  - reflexivity.
Defined.

(** C6. An update cycle removes no series.  A key that snapshot N has and
    snapshot N+1 lacks still shows, after N+1 is applied, the last value
    snapshot N gave it; more generally a cycle leaves every series whose key
    is not in its snapshot as it was, and every existing series in place. *)
Theorem labels_append_only (m : Vec) (s1 s2 : kemp.Statistics) (r : Registry) :
  (forall (a : string) (p : Z),
      In (a, p) (keys m s1) -> ~ In (a, p) (keys m s2) ->
      exists x : float64,
        last_write (a, strconv_Itoa p) (writes m s1) = Some x /\
        series m (update s1 r) a p = Some x /\
        series m (update s2 (update s1 r)) a p = Some x) /\
  (forall (a : string) (p : Z),
      ~ In (a, p) (keys m s2) ->
      series m (update s2 r) a p = series m r a p) /\
  (forall k : LabelValues,
      is_Some (vec m r !! k) -> is_Some (vec m (update s2 r) !! k)).
Proof.
  assert (Hframe : forall r' a p, ~ In (a, p) (keys m s2) ->
                     series m (update s2 r') a p = series m r' a p).
  { intros r' a p Hk. unfold series. rewrite vec_update, lookup_replay.
    rewrite last_write_None; [reflexivity |]. now rewrite in_writes_keys. }
  split; [| split].
  - intros a p H1 H2.
    destruct (last_write_Some (a, strconv_Itoa p) (writes m s1)) as [x Hx].
    { now rewrite in_writes_keys. }
    exists x. split; [exact Hx |].
    assert (Hs1 : series m (update s1 r) a p = Some x).
    { unfold series. now rewrite vec_update, lookup_replay, Hx. }
    split; [exact Hs1 |]. now rewrite Hframe.
  - apply Hframe.
  - intros k Hk. rewrite vec_update, lookup_replay.
    destruct (last_write k (writes m s2)); [eauto | exact Hk].
Qed.

Lemma labels_append_only_witness :
  exists x : float64,
    last_write ("10.0.0.1", strconv_Itoa 80)
      (writes (virtualServer TotalConnections) scenarioA) = Some x /\
    series (virtualServer TotalConnections)
      (update scenarioA empty_registry) "10.0.0.1" 80 = Some x /\
    series (virtualServer TotalConnections)
      (update scenario_gone (update scenarioA empty_registry)) "10.0.0.1" 80 = Some x.
Proof.
  apply (proj1 (labels_append_only (virtualServer TotalConnections)
                  scenarioA scenario_gone empty_registry)).
  - simpl. left. reflexivity.
  - simpl. intros [H | []]. discriminate H.
Defined.

(** Scenario for C6, evaluated: the server of scenario A is still reported
    after a snapshot without it. *)
Example scenario_stale :
  let r := update scenario_gone (update scenarioA empty_registry) in
  series (virtualServer TotalConnections) r "10.0.0.1" 80 = Some 100 /\
  series (virtualServer TotalConnections) r "10.0.0.2" 443 = Some 9 /\
  connsPerSec r = 1.
Proof. vm_compute. repeat split. Qed.

(** C7. Updates overwrite.  After a second snapshot the three gauges hold
    its totals, and every series it writes holds the value it wrote last,
    whatever the first snapshot and the registry before it held; the rate
    fields are stored like every other field, converted and nothing else. *)
Theorem last_write_wins (m : Vec) (s1 s2 : kemp.Statistics) (r : Registry) :
  connsPerSec (update s2 (update s1 r))
    = float64_of_int (kemp.T.ConnectionsPerSec (kemp.Totals s2)) /\
  bytesPerSec (update s2 (update s1 r))
    = float64_of_int (kemp.T.BytesPerSec (kemp.Totals s2)) /\
  packetsPerSec (update s2 (update s1 r))
    = float64_of_int (kemp.T.PacketsPerSec (kemp.Totals s2)) /\
  (forall (k : LabelValues) (x : float64),
      last_write k (writes m s2) = Some x ->
      vec m (update s2 (update s1 r)) !! k = Some x).
Proof.
  destruct (gauges_update s2 (update s1 r)) as (Hc & Hb & Hp).
  split; [exact Hc |]. split; [exact Hb |]. split; [exact Hp |].
  intros k x Hx. now rewrite vec_update, lookup_replay, Hx.
Qed.

Lemma last_write_wins_witness :
  vec (virtualServer TotalConnections)
    (update scenarioB (update scenarioA empty_registry))
    !! ("10.0.0.1", "80") = Some 150.
Proof.
  apply (proj2 (proj2 (proj2 (last_write_wins (virtualServer TotalConnections)
                                scenarioA scenarioB empty_registry)))).
  vm_compute. reflexivity.
Defined.

(** Scenario B, evaluated: 150 after 100, and not their sum. *)
Example scenario_B :
  let r1 := update scenarioA empty_registry in
  let r2 := update scenarioB r1 in
  series (virtualServer TotalConnections) r1 "10.0.0.1" 80 = Some 100 /\
  series (virtualServer TotalConnections) r2 "10.0.0.1" 80 = Some 150 /\
  series (virtualServer TotalConnections) r2 "10.0.0.1" 80 <> Some 250 /\
  series (virtualServer ConnsPerSec) r2 "10.0.0.1" 80 = Some 2 /\
  connsPerSec r2 = 6.
Proof. vm_compute. repeat split. discriminate. Qed.

(** C10. The two families are disjoint: a real-server record changes no
    virtual-server vector and a virtual-server record no real-server vector,
    so that a key present in both collections has, for every statistic, one
    value from each. *)
Theorem families_disjoint (st : Stat) (r : Registry) :
  (forall rs : kemp.RS.t,
      vec (virtualServer st) (update_rs r rs) = vec (virtualServer st) r) /\
  (forall vs : kemp.VS.t,
      vec (realServer st) (update_vs r vs) = vec (realServer st) r) /\
  (forall (s : kemp.Statistics) (k : LabelValues) (x y : float64),
      last_write k (writes (virtualServer st) s) = Some x ->
      last_write k (writes (realServer st) s) = Some y ->
      vec (virtualServer st) (update s r) !! k = Some x /\
      vec (realServer st) (update s r) !! k = Some y).
Proof.
  split; [| split].
  - intros rs. now rewrite vec_update_rs.
  - intros vs. now rewrite vec_update_vs.
  - intros s k x y Hx Hy. now rewrite !vec_update, !lookup_replay, Hx, Hy.
Qed.

Lemma families_disjoint_witness :
  vec (virtualServer TotalConnections) (update scenario_shared empty_registry)
    !! ("10.0.0.1", "80") = Some 100 /\
  vec (realServer TotalConnections) (update scenario_shared empty_registry)
    !! ("10.0.0.1", "80") = Some 41.
Proof.
  apply (proj2 (proj2 (families_disjoint TotalConnections empty_registry))
           scenario_shared ("10.0.0.1", "80") 100 41).
  - vm_compute. reflexivity.
  - vm_compute. reflexivity.
Defined.

(** ** The collector loop *)

Lemma collector_app (wait : Z) (ss : list kemp.Statistics)
    (rest : list FetchResult) (p : Process) :
  collector wait (map Fetched ss ++ rest) p
  = collector wait rest (collector wait (map Fetched ss) p).
Proof.
  revert p. induction ss as [| s ss IH]; intros p; [reflexivity |].
  simpl. apply IH.
Qed.

Lemma collector_successes (wait : Z) (ss : list kemp.Statistics) (p : Process) :
  registry (collector wait (map Fetched ss) p)
    = fold_left (fun r s => update s r) ss (registry p) /\
  main_events (collector wait (map Fetched ss) p) = main_events p /\
  collector_events (collector wait (map Fetched ss) p)
    = collector_events p ++ concat (map (cycle wait) ss) /\
  (ss <> [] -> exited (collector wait (map Fetched ss) p) = None).
Proof.
  revert p. induction ss as [| s ss IH]; intros p.
  - simpl. rewrite app_nil_r. tauto.
  - simpl collector. destruct (IH (mkProcess (update s (registry p)) (main_events p)
        (collector_events p ++ [GetStatistics; Update s; Sleep (sleep_duration wait)])
        None)) as (Hr & Hm & Hc & He).
    simpl in Hr, Hm, Hc, He. rewrite Hr, Hm, Hc.
    split; [reflexivity |]. split; [reflexivity |]. split.
    + simpl. rewrite <- app_assoc. reflexivity.
    + intros _. destruct ss as [| s' ss]; [reflexivity |]. now apply He.
Qed.

(** C2. When a fetch fails the loop logs the error and calls [os.Exit(1)]
    at once; the failed cycle writes nothing, so the registry is the one
    the successful cycles before it left, and whatever the source would have
    answered afterwards is never asked for. *)
Theorem fetch_error_is_fatal (wait : Z) (ss : list kemp.Statistics)
    (err : string) (rest : list FetchResult) (p : Process) :
  let before := collector wait (map Fetched ss) p in
  let after := collector wait (map Fetched ss ++ FetchError err :: rest) p in
  exited after = Some 1 /\
  registry after = registry before /\
  registry after = fold_left (fun r s => update s r) ss (registry p) /\
  collector_events after
    = collector_events before
        ++ [GetStatistics; Println "Error getting statistics " err; Exit 1] /\
  main_events after = main_events p.
Proof.
  intros before after. subst before after.
  rewrite collector_app. simpl.
  destruct (collector_successes wait ss p) as (Hr & Hm & _ & _).
  rewrite Hr, Hm. repeat split.
Qed.

(** Scenario C: an error on the third cycle. *)
Example scenario_C :
  let p := serverRun plain_invocation
             [Fetched scenarioA; Fetched scenarioB; FetchError "timeout";
              Fetched scenario_gone] in
  exited p = Some 1 /\
  registry p = update scenarioB (update scenarioA empty_registry) /\
  collector_events p
    = cycle 10 scenarioA ++ cycle 10 scenarioB ++ failing_cycle "timeout".
Proof. repeat split. Qed.

(** C9. The loop runs fetch, update, sleep, in this order, cycle after
    cycle: its events are those of one full cycle for each answer the source
    gave before its first error, followed by the failing cycle if there is
    one, so that a fetch is preceded by the update and the sleep of the cycle
    before it.  The sleep is the configured number of seconds (in
    nanoseconds) as long as that product fits the duration type. *)
Theorem collector_cycle_order (wait : Z) (source : list FetchResult) (p : Process) :
  collector_events (collector wait source p)
    = collector_events p
        ++ concat (map (cycle wait) (successes source))
        ++ match first_error source with
           | Some err => failing_cycle err
           | None => []
           end /\
  (forall s : kemp.Statistics,
      - 9223372036 <= wait <= 9223372036 ->
      cycle wait s = [GetStatistics; Update s; Sleep (1000000000 * wait)]).
Proof.
  split.
  - revert p. induction source as [| [s | err] source IH]; intros p.
    + simpl. now rewrite app_nil_r.
    + simpl collector. rewrite IH. simpl. now rewrite <- app_assoc.
    + reflexivity.
  - intros s Hw. unfold cycle. now rewrite sleep_duration_seconds.
Qed.

Lemma collector_cycle_order_witness :
  cycle 10 scenarioA = [GetStatistics; Update scenarioA; Sleep 10000000000].
Proof.
  apply (proj2 (collector_cycle_order 10 [] (mkProcess empty_registry [] [] None))
           scenarioA).
  lia.
Defined.

(** ** Start-up *)

(** C8. With a number of positional arguments other than three the process
    prints a usage text and exits with a non-zero status, without starting
    the collector: cobra's help and status 1, or, when the standard flag
    package already refuses the command line, its usage and status 2. *)
Theorem wrong_argument_count (inv : Invocation) (source : list FetchResult) :
  length (Flags_Args inv) <> 3%nat ->
  let p := serverRun inv source in
  main_events p
    = match flag_Parse (tail (os_Args inv)) with
      | Some _ => [Help; Exit 1]
      | None => [FlagUsage; Exit 2]
      end /\
  collector_events p = [] /\
  (exists code : Z, exited p = Some code /\ code <> 0) /\
  registry p = empty_registry /\
  ~ In GetStatistics (main_events p ++ collector_events p).
Proof.
  intros Hlen p. subst p. unfold serverRun.
  destruct (flag_Parse (tail (os_Args inv))) as [args |].
  - destruct (Nat.eqb_spec (length (Flags_Args inv)) 3) as [E | _]; [contradiction |].
    simpl. repeat split.
    + exists 1. split; [reflexivity | discriminate].
    + intros [H | [H | []]]; discriminate H.
  - simpl. repeat split.
    + exists 2. split; [reflexivity | discriminate].
    + intros [H | [H | []]]; discriminate H.
Qed.

Lemma wrong_argument_count_witness :
  let p := serverRun short_invocation [Fetched scenarioA] in
  main_events p = [Help; Exit 1] /\
  collector_events p = [] /\
  (exists code : Z, exited p = Some code /\ code <> 0) /\
  registry p = empty_registry /\
  ~ In GetStatistics (main_events p ++ collector_events p).
Proof.
  apply (wrong_argument_count short_invocation [Fetched scenarioA]).
  simpl. discriminate.
Defined.

(** With exactly three positional arguments and a command line that the
    standard flag package accepts, the client is created and the loop
    runs. *)
Lemma serverRun_starts (inv : Invocation) (source : list FetchResult)
    (args : list string) :
  length (Flags_Args inv) = 3%nat ->
  flag_Parse (tail (os_Args inv)) = Some args ->
  serverRun inv source
  = collector (waitSeconds inv) source
      {| registry := empty_registry;
         main_events :=
           [NewClient (client_config inv args);
            Print "Listening on port " (port inv);
            ListenAndServe (port inv)];
         collector_events := [];
         exited := None |}.
Proof.
  intros Hlen Hparse. unfold serverRun. rewrite Hparse, Hlen. reflexivity.
Qed.

(** When the sub-command name is directly followed by the three positional
    arguments (options, if any, after them), the client gets them in
    order. *)
Lemma client_config_positionals_first (inv : Invocation)
    (prog endpoint user password : string) (trailing : list string) :
  os_Args inv = prog :: "server" :: endpoint :: user :: password :: trailing ->
  flag_Parse (tail (os_Args inv)) = Some (tail (os_Args inv)) /\
  client_config inv (tail (os_Args inv))
  = {| kemp.Endpoint := endpoint; kemp.User := user;
       kemp.Password := password; kemp.Debug := debug inv |}.
Proof. intros ->. split; reflexivity. Qed.

(** C3, at [kemp-exporter server --debug lb.example admin secret]: cobra
    finds the three positional arguments, and the client is configured from
    [flag.Arg(1..3)] of the standard package, which stopped parsing at
    [server]: the endpoint is [--debug], the user the endpoint, the password
    the user. *)
Theorem option_before_positionals_shifts_config :
  Flags_Args debug_first_invocation = ["lb.example"; "admin"; "secret"] /\
  flag_Parse (tail (os_Args debug_first_invocation))
    = Some ["server"; "--debug"; "lb.example"; "admin"; "secret"] /\
  main_events (serverRun debug_first_invocation [])
    = [NewClient {| kemp.Endpoint := "--debug"; kemp.User := "lb.example";
                    kemp.Password := "admin"; kemp.Debug := true |};
       Print "Listening on port " 8000;
       ListenAndServe 8000].
Proof. repeat split. Qed.

(** * Further properties *)

(** ** Label sets *)

Lemma last_write_Some_inv (k : LabelValues) (x : float64)
    (ws : list (LabelValues * float64)) :
  last_write k ws = Some x -> In k (map fst ws).
Proof.
  revert x. induction ws as [| w ws IH]; simpl; intros x Hx; [discriminate Hx |].
  destruct (last_write k ws) as [y |].
  - right. now apply (IH y).
  - destruct (decide (w.1 = k)) as [E | _]; [left; exact E | discriminate Hx].
Qed.

(** The label values a cycle writes are the keys of the collection, with
    the port in decimal. *)
Lemma in_writes_inv (m : Vec) (s : kemp.Statistics) (k : LabelValues) :
  In k (map fst (writes m s)) <->
  exists (a : string) (p : Z), k = (a, strconv_Itoa p) /\ In (a, p) (keys m s).
Proof.
  split.
  - destruct m as [st | st]; simpl; rewrite map_map; simpl; rewrite in_map_iff.
    + intros (vs & <- & Hin). exists (kemp.VS.Address vs), (kemp.VS.Port vs).
      split; [reflexivity |]. unfold vs_keys. rewrite in_map_iff. eauto.
    + intros (rs & <- & Hin). exists (kemp.RS.Address rs), (kemp.RS.Port rs).
      split; [reflexivity |]. unfold rs_keys. rewrite in_map_iff. eauto.
  - intros (a & p & -> & Hin). now apply in_writes_keys.
Qed.

Lemma dom_replay (ws : list (LabelValues * float64)) (v : GaugeVec) (k : LabelValues) :
  k ∈ dom (replay ws v) <-> k ∈ dom v \/ In k (map fst ws).
Proof.
  rewrite !elem_of_dom, lookup_replay.
  destruct (last_write k ws) as [x |] eqn:E.
  - split; [| eauto]. intros _. right. eapply last_write_Some_inv, E.
  - split; [tauto |]. intros [H | H]; [exact H |].
    destruct (last_write_Some k ws H) as [x Hx]. congruence.
Qed.

(** A cycle leaves the series of a key its snapshot lacks as it was. *)
Lemma series_update_absent (m : Vec) (s : kemp.Statistics) (r : Registry)
    (a : string) (p : Z) :
  ~ In (a, p) (keys m s) -> series m (update s r) a p = series m r a p.
Proof.
  intros Hk. unfold series. rewrite vec_update, lookup_replay.
  rewrite last_write_None; [reflexivity |]. now rewrite in_writes_keys.
Qed.

(** X1. After one cycle a vector has a child for some label values exactly
    when it had one before or the snapshot's collection has a record whose
    address and decimal port they are: a cycle creates the series of its
    records and no other. *)
Theorem update_label_set (m : Vec) (s : kemp.Statistics) (r : Registry)
    (k : LabelValues) :
  k ∈ dom (vec m (update s r)) <->
  k ∈ dom (vec m r) \/
  exists (a : string) (p : Z), k = (a, strconv_Itoa p) /\ In (a, p) (keys m s).
Proof. rewrite vec_update, dom_replay, in_writes_inv. reflexivity. Qed.

(** ** Families stay aligned *)

Lemma writes_labels (m : Vec) (s : kemp.Statistics) :
  map fst (writes m s)
  = match m with
    | virtualServer _ => map vs_labels (kemp.VirtualServers s)
    | realServer _ => map rs_labels (kemp.RealServers s)
    end.
Proof. destruct m; simpl; rewrite map_map; reflexivity. Qed.

Lemma uniform_update (s : kemp.Statistics) (r : Registry) :
  uniform r -> uniform (update s r).
Proof.
  intros Hu st st'. destruct (Hu st st') as [Hv Hr].
  split; apply set_eq; intros k; rewrite !vec_update, !dom_replay, !writes_labels.
  - now rewrite Hv.
  - now rewrite Hr.
Qed.

Lemma uniform_fold (ss : list kemp.Statistics) (r : Registry) :
  uniform r -> uniform (fold_left (fun r' s => update s r') ss r).
Proof.
  revert r. induction ss as [| s ss IH]; intros r Hu; [exact Hu |].
  simpl. apply IH. now apply uniform_update.
Qed.

Lemma uniform_empty : uniform empty_registry.
Proof. intros [] []; split; reflexivity. Qed.

(** The loop on an arbitrary source. *)
Lemma collector_outcome (wait : Z) (source : list FetchResult) (p : Process) :
  registry (collector wait source p)
    = fold_left (fun r s => update s r) (successes source) (registry p) /\
  main_events (collector wait source p) = main_events p /\
  exited (collector wait source p)
    = match first_error source with
      | Some _ => Some 1
      | None => match successes source with [] => exited p | _ => None end
      end.
Proof.
  revert p. induction source as [| [s | err] source IH]; intros p.
  - auto.
  - simpl collector. destruct (IH (mkProcess (update s (registry p)) (main_events p)
        (collector_events p ++ [GetStatistics; Update s; Sleep (sleep_duration wait)])
        None)) as (Hr & Hm & He).
    rewrite Hr, Hm, He. simpl.
    split; [reflexivity |]. split; [reflexivity |].
    destruct (first_error source); [reflexivity |].
    destruct (successes source); reflexivity.
  - simpl. auto.
Qed.

Lemma serverRun_registry (inv : Invocation) (source : list FetchResult) :
  exists ss : list kemp.Statistics,
    registry (serverRun inv source)
    = fold_left (fun r s => update s r) ss empty_registry.
Proof.
  unfold serverRun.
  destruct (flag_Parse (tail (os_Args inv))) as [args |]; [| exists []; reflexivity].
  destruct (negb (length (Flags_Args inv) =? 3)%nat); [exists []; reflexivity |].
  exists (successes source).
  now destruct (collector_outcome (waitSeconds inv) source
    (mkProcess empty_registry
       [NewClient (client_config inv args);
        Print "Listening on port " (port inv);
        ListenAndServe (port inv)] [] None)) as (-> & _).
Qed.

(** X2. The seven vectors of a family always have children for the same
    label values: this holds when the process starts, every cycle keeps it,
    and so it holds for the registry of every run, whatever the command
    line and the answers of the source. *)
Theorem families_stay_aligned :
  uniform empty_registry /\
  (forall (s : kemp.Statistics) (r : Registry), uniform r -> uniform (update s r)) /\
  (forall (inv : Invocation) (source : list FetchResult),
      uniform (registry (serverRun inv source))).
Proof.
  split; [exact uniform_empty |]. split; [exact uniform_update |].
  intros inv source. destruct (serverRun_registry inv source) as [ss ->].
  apply uniform_fold, uniform_empty.
Qed.

(** ** The order of the records *)

Lemma last_write_In (k : LabelValues) (x : float64)
    (ws : list (LabelValues * float64)) :
  List.NoDup (map fst ws) ->
  last_write k ws = Some x <-> In (k, x) ws.
Proof.
  induction ws as [| w ws IH]; simpl; intros Hnd.
  - split; [discriminate | tauto].
  - apply List.NoDup_cons_iff in Hnd as [Hw Hnd]. specialize (IH Hnd).
    destruct (last_write k ws) as [y |] eqn:E.
    + split.
      * intros Hy. right. apply IH. exact Hy.
      * intros [-> | Hin]; [| now apply IH].
        simpl in Hw. exfalso. apply Hw. eapply last_write_Some_inv, E.
    + destruct (decide (w.1 = k)) as [Ek | Ek].
      * split.
        -- intros [= <-]. left. destruct w; simpl in *. now subst.
        -- intros [-> | Hin]; [reflexivity |]. apply IH in Hin. discriminate Hin.
      * split; [discriminate |].
        intros [-> | Hin]; [now elim Ek |]. apply IH in Hin. discriminate Hin.
Qed.

Lemma last_write_perm (k : LabelValues) (ws ws' : list (LabelValues * float64)) :
  Permutation ws ws' -> List.NoDup (map fst ws) ->
  last_write k ws = last_write k ws'.
Proof.
  intros Hp Hnd.
  assert (Hnd' : List.NoDup (map fst ws')).
  { eapply Permutation_NoDup; [apply Permutation_map, Hp | exact Hnd]. }
  destruct (last_write k ws) as [x |] eqn:E.
  - symmetry. apply last_write_In; [exact Hnd' |].
    eapply Permutation_in; [exact Hp |]. now apply last_write_In.
  - destruct (last_write k ws') as [y |] eqn:E'; [| reflexivity].
    apply last_write_In in E'; [| exact Hnd'].
    apply (Permutation_in _ (Permutation_sym Hp)) in E'.
    apply last_write_In in E'; [congruence | exact Hnd].
Qed.

Lemma labels_of_key_inj :
  Finite.Injective (fun k : string * Z => (k.1, strconv_Itoa k.2)).
Proof.
  intros [a p] [b q] E. simpl in E. now apply labels_inj.
Qed.

Lemma NoDup_vs_labels (l : list kemp.VS.t) :
  List.NoDup (map (fun vs => (kemp.VS.Address vs, kemp.VS.Port vs)) l) ->
  List.NoDup (map vs_labels l).
Proof.
  intros Hnd. apply (Finite.Injective_map_NoDup labels_of_key_inj) in Hnd.
  now rewrite map_map in Hnd.
Qed.

Lemma NoDup_rs_labels (l : list kemp.RS.t) :
  List.NoDup (map (fun rs => (kemp.RS.Address rs, kemp.RS.Port rs)) l) ->
  List.NoDup (map rs_labels l).
Proof.
  intros Hnd. apply (Finite.Injective_map_NoDup labels_of_key_inj) in Hnd.
  now rewrite map_map in Hnd.
Qed.

(** X3. When the records of each collection have pairwise distinct keys,
    the registry after the cycle does not depend on the order in which the
    snapshot lists them. *)
Theorem update_order_irrelevant (s : kemp.Statistics)
    (vss vss' : list kemp.VS.t) (rss rss' : list kemp.RS.t) (r : Registry) :
  Permutation vss vss' ->
  Permutation rss rss' ->
  List.NoDup (map (fun vs => (kemp.VS.Address vs, kemp.VS.Port vs)) vss) ->
  List.NoDup (map (fun rs => (kemp.RS.Address rs, kemp.RS.Port rs)) rss) ->
  update (with_servers s vss rss) r = update (with_servers s vss' rss') r.
Proof.
  intros Hv Hr Hnv Hnr.
  destruct (gauges_update (with_servers s vss rss) r) as (Hc & Hb & Hp).
  destruct (gauges_update (with_servers s vss' rss') r) as (Hc' & Hb' & Hp').
  apply registry_eq; [now rewrite Hc, Hc' | now rewrite Hb, Hb' | now rewrite Hp, Hp' |].
  intros m. rewrite !vec_update. apply map_eq. intros k. rewrite !lookup_replay.
  rewrite (last_write_perm k (writes m (with_servers s vss rss))
             (writes m (with_servers s vss' rss'))); [reflexivity | |].
  - destruct m; simpl; now apply Permutation_map.
  - rewrite writes_labels. destruct m; simpl.
    + now apply NoDup_vs_labels.
    + now apply NoDup_rs_labels.
Qed.

Lemma update_order_irrelevant_witness :
  update (with_servers scenarioA [web80; web443] [backend80]) empty_registry
  = update (with_servers scenarioA [web443; web80] [backend80]) empty_registry.
Proof.
  apply update_order_irrelevant.
  - apply perm_swap.
  - apply Permutation_refl.
  - simpl. repeat constructor; simpl; intros H; repeat (destruct H as [H | H]; try discriminate H); exact H.
  - simpl. repeat constructor; simpl; intros H; exact H.
Defined.

(** With a key listed twice the order does matter: the later record wins. *)
Example duplicate_keys_depend_on_order :
  series (virtualServer TotalConnections)
    (update (with_servers scenarioA [web80; web80'] []) empty_registry) "10.0.0.1" 80
    = Some 150 /\
  series (virtualServer TotalConnections)
    (update (with_servers scenarioA [web80'; web80] []) empty_registry) "10.0.0.1" 80
    = Some 100.
Proof. vm_compute. split; reflexivity. Qed.

(** ** A snapshot that covers the one before *)

(** X4. When every key of a snapshot is again in the next one, the first
    leaves no trace: the registry after both cycles is the registry the
    second alone gives. *)
Theorem update_absorbs (s1 s2 : kemp.Statistics) (r : Registry) :
  (forall (a : string) (p : Z), In (a, p) (vs_keys s1) -> In (a, p) (vs_keys s2)) ->
  (forall (a : string) (p : Z), In (a, p) (rs_keys s1) -> In (a, p) (rs_keys s2)) ->
  update s2 (update s1 r) = update s2 r.
Proof.
  intros Hvs Hrs.
  destruct (gauges_update s2 (update s1 r)) as (Hc & Hb & Hp).
  destruct (gauges_update s2 r) as (Hc' & Hb' & Hp').
  apply registry_eq; [congruence | congruence | congruence |].
  intros m. rewrite !vec_update. apply map_eq. intros k. rewrite !lookup_replay.
  destruct (last_write k (writes m s2)) as [x |] eqn:E2; [reflexivity |].
  destruct (last_write k (writes m s1)) as [y |] eqn:E1; [| reflexivity].
  exfalso. apply last_write_Some_inv in E1.
  apply in_writes_inv in E1 as (a & p & -> & Hin).
  assert (Hin2 : In (a, p) (keys m s2)).
  { destruct m; simpl in *; [now apply Hvs | now apply Hrs]. }
  apply in_writes_keys in Hin2.
  destruct (last_write_Some _ _ Hin2) as [x Hx]. congruence.
Qed.

Lemma update_absorbs_witness :
  update scenarioB (update scenarioA empty_registry)
  = update scenarioB empty_registry.
Proof.
  apply update_absorbs.
  - intros a p H. exact H.
  - intros a p H. exact H.
Defined.

(** ** Whole runs *)

Lemma dom_fold_update (m : Vec) (ss : list kemp.Statistics) (r : Registry)
    (k : LabelValues) :
  k ∈ dom (vec m (fold_left (fun r' s => update s r') ss r)) <->
  k ∈ dom (vec m r) \/
  exists (s : kemp.Statistics) (a : string) (q : Z),
    In s ss /\ k = (a, strconv_Itoa q) /\ In (a, q) (keys m s).
Proof.
  revert r. induction ss as [| s ss IH]; intros r; simpl.
  - split; [tauto |]. intros [H | (s & a & q & [] & _)]. exact H.
  - rewrite IH, vec_update, dom_replay, in_writes_inv. split.
    + intros [[H | (a & q & Hk & Hin)] | (s' & a & q & Hs & Hk & Hin)].
      * now left.
      * right. exists s, a, q. auto.
      * right. exists s', a, q. auto.
    + intros [H | (s' & a & q & [<- | Hs] & Hk & Hin)].
      * left. now left.
      * left. right. eauto.
      * right. exists s', a, q. auto.
Qed.

Lemma series_fold_absent (m : Vec) (ss : list kemp.Statistics) (r : Registry)
    (a : string) (q : Z) :
  (forall s : kemp.Statistics, In s ss -> ~ In (a, q) (keys m s)) ->
  series m (fold_left (fun r' s => update s r') ss r) a q = series m r a q.
Proof.
  revert r. induction ss as [| s ss IH]; intros r Habs; [reflexivity |].
  simpl. rewrite IH by (intros s' Hs'; apply Habs; now right).
  apply series_update_absent, Habs. now left.
Qed.

Lemma collector_main_events (wait : Z) (source : list FetchResult) (p : Process) :
  main_events (collector wait source p) = main_events p.
Proof. apply collector_outcome. Qed.



(** X6. After any number of cycles a vector has a child for some label
    values exactly when it had one at the start or one of the snapshots
    fetched before the first error has a record whose address and decimal
    port they are: the label set of a run is the union of the keys it has
    seen, and answers after the first error add nothing. *)
Theorem run_label_set (m : Vec) (wait : Z) (source : list FetchResult)
    (p : Process) (k : LabelValues) :
  k ∈ dom (vec m (registry (collector wait source p))) <->
  k ∈ dom (vec m (registry p)) \/
  exists (s : kemp.Statistics) (a : string) (q : Z),
    In s (successes source) /\ k = (a, strconv_Itoa q) /\ In (a, q) (keys m s).
Proof.
  destruct (collector_outcome wait source p) as (-> & _).
  apply dom_fold_update.
Qed.

(** X7. After a run the series of a key shows the value given to it by the
    latest snapshot that had the key, however many snapshots without it
    followed. *)
Theorem run_reports_latest (m : Vec) (wait : Z) (source : list FetchResult)
    (p : Process) (before : list kemp.Statistics) (s : kemp.Statistics)
    (later : list kemp.Statistics) (a : string) (q : Z) :
  successes source = before ++ s :: later ->
  In (a, q) (keys m s) ->
  (forall s' : kemp.Statistics, In s' later -> ~ In (a, q) (keys m s')) ->
  exists x : float64,
    last_write (a, strconv_Itoa q) (writes m s) = Some x /\
    series m (registry (collector wait source p)) a q = Some x.
Proof.
  intros Hsrc Hin Habs.
  destruct (last_write_Some (a, strconv_Itoa q) (writes m s)) as [x Hx].
  { now apply in_writes_keys. }
  exists x. split; [exact Hx |].
  destruct (collector_outcome wait source p) as (-> & _).
  rewrite Hsrc, fold_left_app. simpl.
  rewrite series_fold_absent by exact Habs.
  unfold series. now rewrite vec_update, lookup_replay, Hx.
Qed.

Lemma run_reports_latest_witness :
  exists x : float64,
    last_write ("10.0.0.1", strconv_Itoa 80)
      (writes (virtualServer TotalConnections) scenarioB) = Some x /\
    series (virtualServer TotalConnections)
      (registry (collector 10
         [Fetched scenarioA; Fetched scenarioB; Fetched scenario_gone;
          FetchError "timeout"]
         (mkProcess empty_registry [] [] None))) "10.0.0.1" 80 = Some x.
Proof.
  apply (run_reports_latest (virtualServer TotalConnections) 10
           [Fetched scenarioA; Fetched scenarioB; Fetched scenario_gone;
            FetchError "timeout"]
           (mkProcess empty_registry [] [] None)
           [scenarioA] scenarioB [scenario_gone]).
  - reflexivity.
  - simpl. left. reflexivity.
  - intros s' [<- | []]. simpl. intros [H | []]. discriminate H.
Defined.

(** X8. The three unlabeled gauges of a run hold the totals of the last
    snapshot fetched before the first error; a run whose first answer is an
    error, or that has no answer yet, leaves the whole registry as it
    was. *)
Theorem run_gauges (wait : Z) (source : list FetchResult) (p : Process) :
  (successes source = [] -> registry (collector wait source p) = registry p) /\
  (forall (ss : list kemp.Statistics) (s : kemp.Statistics),
      successes source = ss ++ [s] ->
      connsPerSec (registry (collector wait source p))
        = float64_of_int (kemp.T.ConnectionsPerSec (kemp.Totals s)) /\
      bytesPerSec (registry (collector wait source p))
        = float64_of_int (kemp.T.BytesPerSec (kemp.Totals s)) /\
      packetsPerSec (registry (collector wait source p))
        = float64_of_int (kemp.T.PacketsPerSec (kemp.Totals s))).
Proof.
  destruct (collector_outcome wait source p) as (-> & _).
  split.
  - intros ->. reflexivity.
  - intros ss s ->. rewrite fold_left_app. simpl. apply gauges_update.
Qed.

(** ** Keys and values *)

(** X9. The label values of two records are the same exactly when their
    addresses and their ports are: two different servers never share a
    series. *)
Theorem labels_identify_server :
  (forall vs vs' : kemp.VS.t,
      vs_labels vs = vs_labels vs' <->
      kemp.VS.Address vs = kemp.VS.Address vs' /\ kemp.VS.Port vs = kemp.VS.Port vs') /\
  (forall rs rs' : kemp.RS.t,
      rs_labels rs = rs_labels rs' <->
      kemp.RS.Address rs = kemp.RS.Address rs' /\ kemp.RS.Port rs = kemp.RS.Port rs').
Proof.
  split.
  - intros vs vs'. unfold vs_labels. split.
    + intros E. apply labels_inj in E. now injection E.
    + intros [-> ->]. reflexivity.
  - intros rs rs'. unfold rs_labels. split.
    + intros E. apply labels_inj in E. now injection E.
    + intros [-> ->]. reflexivity.
Qed.

Lemma series_update_last (m : Vec) (s : kemp.Statistics) (r : Registry)
    (k : LabelValues) (x : float64) (pre post : list (LabelValues * float64)) :
  writes m s = pre ++ (k, x) :: post ->
  ~ In k (map fst post) ->
  vec m (update s r) !! k = Some x.
Proof.
  intros Hw Hlast. rewrite vec_update, lookup_replay, Hw.
  now rewrite last_write_last.
Qed.

(** X10. Values up to [2^53] in magnitude are exported unchanged: the three
    gauges equal the totals, and the series of a record (the last of its
    key in its collection) equals the record's field. *)
Theorem exact_values_exported_unchanged (s : kemp.Statistics) (r : Registry) :
  (exact (kemp.T.ConnectionsPerSec (kemp.Totals s)) ->
   connsPerSec (update s r) = kemp.T.ConnectionsPerSec (kemp.Totals s)) /\
  (exact (kemp.T.BytesPerSec (kemp.Totals s)) ->
   bytesPerSec (update s r) = kemp.T.BytesPerSec (kemp.Totals s)) /\
  (exact (kemp.T.PacketsPerSec (kemp.Totals s)) ->
   packetsPerSec (update s r) = kemp.T.PacketsPerSec (kemp.Totals s)) /\
  (forall (st : Stat) (pre : list kemp.VS.t) (vs : kemp.VS.t) (post : list kemp.VS.t),
      kemp.VirtualServers s = pre ++ vs :: post ->
      ~ In (kemp.VS.Address vs, kemp.VS.Port vs)
           (map (fun vs' => (kemp.VS.Address vs', kemp.VS.Port vs')) post) ->
      exact (vs_stat st vs) ->
      series (virtualServer st) (update s r) (kemp.VS.Address vs) (kemp.VS.Port vs)
      = Some (vs_stat st vs)) /\
  (forall (st : Stat) (pre : list kemp.RS.t) (rs : kemp.RS.t) (post : list kemp.RS.t),
      kemp.RealServers s = pre ++ rs :: post ->
      ~ In (kemp.RS.Address rs, kemp.RS.Port rs)
           (map (fun rs' => (kemp.RS.Address rs', kemp.RS.Port rs')) post) ->
      exact (rs_stat st rs) ->
      series (realServer st) (update s r) (kemp.RS.Address rs) (kemp.RS.Port rs)
      = Some (rs_stat st rs)).
Proof.
  destruct (gauges_update s r) as (Hc & Hb & Hp).
  split; [intros Hx; rewrite Hc; now apply float64_of_int_exact |].
  split; [intros Hx; rewrite Hb; now apply float64_of_int_exact |].
  split; [intros Hx; rewrite Hp; now apply float64_of_int_exact |].
  split.
  - intros st pre vs post Hl Hlast Hx. unfold series.
    rewrite <- (float64_of_int_exact (vs_stat st vs) Hx).
    apply (series_update_last _ _ _ _ _
             (map (fun v => (vs_labels v, float64_of_int (vs_stat st v))) pre)
             (map (fun v => (vs_labels v, float64_of_int (vs_stat st v))) post)).
    + simpl. rewrite Hl, map_app. reflexivity.
    + rewrite map_map. simpl. now rewrite in_vs_labels.
  - intros st pre rs post Hl Hlast Hx. unfold series.
    rewrite <- (float64_of_int_exact (rs_stat st rs) Hx).
    apply (series_update_last _ _ _ _ _
             (map (fun v => (rs_labels v, float64_of_int (rs_stat st v))) pre)
             (map (fun v => (rs_labels v, float64_of_int (rs_stat st v))) post)).
    + simpl. rewrite Hl, map_app. reflexivity.
    + rewrite map_map. simpl. now rewrite in_rs_labels.
Qed.

Lemma exact_values_exported_unchanged_witness :
  connsPerSec (update scenarioA empty_registry) = 5 /\
  series (virtualServer BytesWritten) (update scenarioA empty_registry) "10.0.0.1" 80
  = Some 500000.
Proof.
  destruct (exact_values_exported_unchanged scenarioA empty_registry)
    as (Hc & _ & _ & Hvs & _).
  split.
  - apply Hc. unfold exact. simpl. lia.
  - apply (Hvs BytesWritten [] web80 []).
    + reflexivity.
    + simpl. tauto.
    + unfold exact. simpl. lia.
Defined.

(** ** The command line, continued *)

(** X11. With three positional arguments, the client is configured from
    the first three tokens that follow the sub-command name on the command
    line, whatever they are; they are the positional arguments only when no
    option stands before them. *)
Theorem client_from_tokens_after_subcommand (inv : Invocation)
    (source : list FetchResult) (prog : string) (rest : list string) :
  os_Args inv = prog :: "server" :: rest ->
  length (Flags_Args inv) = 3%nat ->
  main_events (serverRun inv source)
  = [NewClient {| kemp.Endpoint := nth 0 rest "";
                  kemp.User := nth 1 rest "";
                  kemp.Password := nth 2 rest "";
                  kemp.Debug := debug inv |};
     Print "Listening on port " (port inv);
     ListenAndServe (port inv)].
Proof.
  intros Hargs Hlen.
  rewrite (serverRun_starts inv source ("server" :: rest) Hlen)
    by (rewrite Hargs; reflexivity).
  rewrite collector_main_events. reflexivity.
Qed.

Lemma client_from_tokens_after_subcommand_witness :
  main_events (serverRun plain_invocation [Fetched scenarioA])
  = [NewClient {| kemp.Endpoint := "lb.example";
                  kemp.User := "admin";
                  kemp.Password := "secret";
                  kemp.Debug := false |};
     Print "Listening on port " 8000;
     ListenAndServe 8000].
Proof.
  apply (client_from_tokens_after_subcommand plain_invocation [Fetched scenarioA]
           "kemp-exporter" ["lb.example"; "admin"; "secret"]).
  - reflexivity.
  - reflexivity.
Defined.

(** X12. When the first argument of the process is an option (a token of
    two characters or more that starts with [-], other than [--]), the
    standard flag package refuses it: the server prints that package's
    usage and exits, without creating the client or fetching, even with
    three positional arguments. *)
Theorem option_before_subcommand_refused (inv : Invocation)
    (source : list FetchResult) (prog : string) (c : Ascii.ascii) (s' : string)
    (rest : list string) :
  os_Args inv = prog :: String "-" (String c s') :: rest ->
  c <> "-"%char \/ s' <> "" ->
  exists code : Z,
    main_events (serverRun inv source) = [FlagUsage; Exit code] /\
    exited (serverRun inv source) = Some code /\
    collector_events (serverRun inv source) = [] /\
    registry (serverRun inv source) = empty_registry.
Proof.
  intros Hargs Hopt. exists 2. unfold serverRun. rewrite Hargs. simpl.
  assert (E : is_minus c && (String.length s' =? 0)%nat = false).
  { destruct Hopt as [Hc | Hs].
    - unfold is_minus. apply Ascii.eqb_neq in Hc. now rewrite Hc.
    - destruct s'; [now elim Hs |]. apply andb_false_r. }
  rewrite E. auto.
Qed.

Lemma option_before_subcommand_refused_witness :
  exists code : Z,
    main_events (serverRun option_first_invocation [Fetched scenarioA])
      = [FlagUsage; Exit code] /\
    exited (serverRun option_first_invocation [Fetched scenarioA]) = Some code /\
    collector_events (serverRun option_first_invocation [Fetched scenarioA]) = [] /\
    registry (serverRun option_first_invocation [Fetched scenarioA]) = empty_registry.
Proof.
  apply (option_before_subcommand_refused option_first_invocation
           [Fetched scenarioA] "kemp-exporter" "-"%char "port=9000"
           ["server"; "lb.example"; "admin"; "secret"]).
  - reflexivity.
  - right. discriminate.
Defined.

(** ** Registration *)

Lemma MustRegister_each_fresh (cs : list Metric) (names : gset string) :
  forallb valid_desc cs = true ->
  NoDup (map Name cs) ->
  (forall c : Metric, c ∈ cs -> Name c ∉ names) ->
  MustRegister_each cs names = Some (list_to_set (map Name cs) ∪ names).
Proof.
  revert names. induction cs as [| c cs IH]; intros names Hvalid Hnd Hfresh.
  - simpl. now rewrite union_empty_l_L.
  - simpl in Hvalid. apply andb_true_iff in Hvalid as [Hc Hvalid].
    simpl in Hnd. apply NoDup_cons in Hnd as [Hc' Hnd].
    simpl. unfold MustRegister. rewrite Hc.
    rewrite bool_decide_eq_false_2 by (apply Hfresh; left).
    simpl. rewrite IH; [| exact Hvalid | exact Hnd |].
    { f_equal. rewrite (assoc_L (∪)). f_equal. apply (comm_L (∪)). }
    intros c0 Hc0. apply not_elem_of_union. split.
    + apply not_elem_of_singleton. intros E. apply Hc'. rewrite <- E.
      apply list_elem_of_In, in_map, list_elem_of_In, Hc0.
    + apply Hfresh. now right.
Qed.

Lemma MustRegister_each_taken (cs : list Metric) (names : gset string) (c : Metric) :
  c ∈ cs -> Name c ∈ names -> MustRegister_each cs names = None.
Proof.
  revert names. induction cs as [| c0 cs IH]; intros names Hin Htaken.
  - inversion Hin.
  - simpl. unfold MustRegister.
    destruct (valid_desc c0 && negb (bool_decide (Name c0 ∈ names))) eqn:E;
      [| reflexivity].
    apply elem_of_cons in Hin as [-> | Hin].
    + rewrite bool_decide_eq_true_2 in E by exact Htaken.
      rewrite andb_false_r in E. discriminate E.
    + apply IH; [exact Hin |]. apply elem_of_union. now right.
Qed.

Lemma registration_order_complete (c : Metric) : c ∈ registration_order.
Proof.
  apply list_elem_of_In.
  destruct c as [| | | [[] | []]]; simpl; tauto.
Qed.

Lemma registration_order_valid : forallb valid_desc registration_order = true.
Proof. vm_compute. reflexivity. Qed.

Lemma registration_order_names : NoDup (map Name registration_order).
Proof. apply (bool_decide_unpack _). vm_compute. exact I. Qed.

(** X13. [init] registers every one of the seventeen collectors, each with
    a descriptor the library accepts and under a name of its own.  Its
    registrations succeed when none of these names is registered yet, and
    then add exactly the seventeen names; when one of them is taken, [init]
    panics. *)
Theorem init_registers (names : gset string) :
  ((forall c : Metric, Name c ∉ names) ->
   init names = Some (list_to_set (map Name registration_order) ∪ names)) /\
  (forall c : Metric, Name c ∈ names -> init names = None).
Proof.
  split.
  - intros Hfresh. apply MustRegister_each_fresh.
    + exact registration_order_valid.
    + exact registration_order_names.
    + intros c _. apply Hfresh.
  - intros c Htaken.
    apply (MustRegister_each_taken registration_order names c);
      [apply registration_order_complete | exact Htaken].
Qed.

Example init_samples :
  is_Some (init ∅) /\
  is_Some (init {["go_goroutines"; "process_cpu_seconds_total"]}) /\
  init {["kemp_real_server_bytes_read"]} = None.
Proof.
  split; [| split].
  - vm_compute. eauto.
  - vm_compute. eauto.
  - vm_compute. reflexivity.
Qed.
